(** * The drug-catalogue extractor of [generate_prescription.py]

    A shallow embedding of the catalogue functions of
    [src/generate_prescription.py] and of the section-table writer of
    [generate_indication_xlsx], followed by the properties the
    specification states about them.

    Conventions of the embedding.
    - A Python [str] is a Rocq [string] holding its UTF-8 bytes, so that
      the byte-wise lexicographic order is the code-point order Python's
      [sorted] uses.  [lower] and [strip] act on the ASCII letters and the
      ASCII white space; bytes above 127 are left alone.
    - A sheet cell is empty ([NaN], what [read_excel] gives), a text or an
      integer number; floating-point cells are not modelled, and a number
      keeps the rendering of the integer it was read as.
    - [astype(str)] turns an empty cell into the text nan, as pandas 1 and
      2 do and as line 55 of the source expects.
    - The frame read from the sheet is a list of rows; a row shorter than
      the widest one is padded with empty cells, as [read_excel] does.
    - Code that can raise returns a [result]. *)

From Stdlib Require Import ZArith String Ascii List Bool Lia DecimalString.
From Stdlib Require Import Permutation Sorted.
From stdpp Require Import gmap strings.
Import ListNotations.
Open Scope string_scope.

(* ================================================================== *)
(** ** Python's string built-ins *)

Module PyStr.

Definition is_upper (ch : ascii) : bool :=
  (65 <=? nat_of_ascii ch)%nat && (nat_of_ascii ch <=? 90)%nat.

Definition lower_char (ch : ascii) : ascii :=
  if is_upper ch then ascii_of_nat (nat_of_ascii ch + 32) else ch.

(** [s.lower()] *)
Fixpoint lower (s : string) : string :=
  match s with
  | EmptyString => EmptyString
  | String ch s' => String (lower_char ch) (lower s')
  end.

(** White space of [str.strip()]: TAB, LF, VT, FF, CR, FS, GS, RS, US and
    the blank. *)
Definition is_space (ch : ascii) : bool :=
  let n := nat_of_ascii ch in
  ((9 <=? n)%nat && (n <=? 13)%nat) || ((28 <=? n)%nat && (n <=? 32)%nat).

Fixpoint lstrip (s : string) : string :=
  match s with
  | EmptyString => EmptyString
  | String ch s' => if is_space ch then lstrip s' else s
  end.

Fixpoint rstrip (s : string) : string :=
  match s with
  | EmptyString => EmptyString
  | String ch s' =>
      match rstrip s' with
      | EmptyString => if is_space ch then EmptyString else String ch EmptyString
      | t => String ch t
      end
  end.

(** [s.strip()] *)
Definition strip (s : string) : string := rstrip (lstrip s).

(** [pat in s] for two strings *)
Fixpoint contains (pat s : string) : bool :=
  String.prefix pat s ||
  match s with
  | EmptyString => false
  | String _ s' => contains pat s'
  end.

(** [sep.join(l)] *)
Fixpoint join (sep : string) (l : list string) : string :=
  match l with
  | [] => EmptyString
  | [x] => x
  | x :: l' => x +:+ sep +:+ join sep l'
  end.

(** [str(n)] for an [int] *)
Definition str_of_int (z : Z) : string := NilZero.string_of_int (Z.to_int z).

(** The characters [str(n)] can start with: a digit or the minus sign. *)
Definition digit_or_minus (ch : ascii) : bool :=
  ((48 <=? nat_of_ascii ch)%nat && (nat_of_ascii ch <=? 57)%nat)
  || Ascii.eqb ch "-".

(** [sorted(l)] on strings.  The order on strings is total and
    antisymmetric, so the result does not depend on the algorithm. *)
Fixpoint insert_sorted (x : string) (l : list string) : list string :=
  match l with
  | [] => [x]
  | y :: l' => if String.leb x y then x :: l else y :: insert_sorted x l'
  end.

Fixpoint sorted (l : list string) : list string :=
  match l with
  | [] => []
  | x :: l' => insert_sorted x (sorted l')
  end.

End PyStr.

Import PyStr.

(* ================================================================== *)
(** ** Exceptions *)

Inductive PyError : Type := TypeError | ValueError | IndexError.

Inductive result (A : Type) : Type :=
  | Ok (a : A)
  | Raise (e : PyError).

Arguments Ok {A} a.
Arguments Raise {A} e.

#[global] Instance result_bind : MBind result :=
  fun A B f m => match m with Ok a => f a | Raise e => Raise e end.

#[global] Instance result_ret : MRet result := fun A a => Ok a.

(** A [for] loop whose body updates a state and may raise. *)
Fixpoint for_each {A S : Type} (xs : list A) (body : A -> S -> result S) (s : S)
  : result S :=
  match xs with
  | [] => Ok s
  | x :: xs' => s' ← body x s; for_each xs' body s'
  end.

(* ================================================================== *)
(** ** Cells and the frame read from the sheet *)

Inductive Cell : Type :=
  | NaN
  | Str (s : string)
  | Int (z : Z).

#[global] Instance Cell_eq_dec : EqDecision Cell.
Proof. solve_decision. Defined.

(** [pd.isna(x)] *)
Definition isna (x : Cell) : bool :=
  match x with NaN => true | _ => false end.

(** [str(x)], also what [astype(str)] does to each element *)
Definition str (x : Cell) : string :=
  match x with
  | NaN => "nan"
  | Str s => s
  | Int z => str_of_int z
  end.

(** The frame [raw]: [header=None], so every sheet row is a data row. *)
Definition Grid : Type := list (list Cell).

Definition shape0 (raw : Grid) : nat := length raw.

Definition shape1 (raw : Grid) : nat :=
  foldr (fun row w => Nat.max (length row) w) 0 raw.

(** [raw.iat[r, c]], for a position inside the frame *)
Definition iat (raw : Grid) (r c : nat) : Cell := nth c (nth r raw []) NaN.

(** [raw.iloc[r, a:b]]: the slice is clipped at the frame's last column. *)
Definition iloc (raw : Grid) (r a b : nat) : list Cell :=
  map (iat raw r) (seq a (Nat.min b (shape1 raw) - a)).

(** One row of a table body, under the six column labels
    Medicamento, Dosis, Solución, VS, Tiempo, Via. *)
Record Row : Type := mkRow {
  Medicamento : Cell;
  Dosis : Cell;
  Solucion : Cell;
  VS : Cell;
  Tiempo : Cell;
  Via : Cell
}.

(** One row of the catalogue: the six columns and the bucket column. *)
Record Entry : Type := mkEntry {
  bucket : Cell;
  row : Row
}.

#[global] Instance Row_eq_dec : EqDecision Row.
Proof. solve_decision. Defined.

#[global] Instance Entry_eq_dec : EqDecision Entry.
Proof. solve_decision. Defined.

(* ================================================================== *)
(** ** [_infer_bucket] *)

(** The four tests of one row's text, in the order of the source. *)
Definition title_of (txt : string) : option string :=
  if contains "premedic" txt then Some "Premedicación"
  else if contains "anticuerp" txt then Some "Anticuerpos"
  else if contains "quimiot" txt then Some "Quimioterapia"
  else if contains "otros" txt then Some "Otros"
  else None.

(** [" ".join(raw.iloc[up, max(0,c-2):c+1].astype(str).str.lower().tolist())] *)
Definition row_text (raw : Grid) (up c : nat) : string :=
  let row_vals := map (fun x => lower (str x)) (iloc raw up (Nat.max 0 (c - 2)) (c + 1)) in
  join " " row_vals.

Fixpoint infer_loop (raw : Grid) (c : nat) (ups : list nat) : string :=
  match ups with
  | [] => "Catálogo"
  | up :: ups' =>
      match title_of (row_text raw up c) with
      | Some b => b
      | None => infer_loop raw c ups'
      end
  end.

(** [range(max(0, r-8), r)[::-1]]; on [nat], [r - 8] is already
    [max(0, r-8)]. *)
Definition rows_above (r : nat) : list nat :=
  let lo := Nat.max 0 (r - 8) in rev (seq lo (r - lo)).

Definition _infer_bucket (raw : Grid) (r c : nat) : string :=
  infer_loop raw c (rows_above r).

(* ================================================================== *)
(** ** [extract_catalog_from_excel] *)

(** The test of line 36. *)
Definition is_candidate (raw : Grid) (r c : nat) : bool :=
  String.eqb (lower (strip (str (iat raw r c)))) "medicamento".

(** ["Medicamento" in header[0]] (line 39): [in] needs a string on its
    right, and indexing needs a first element. *)
Definition header_has_title (header : list Cell) : result bool :=
  match header with
  | [] => Raise IndexError
  | Str s :: _ => Ok (contains "Medicamento" s)
  | _ :: _ => Raise TypeError
  end.

(** The [while] loop of lines 43-49, started with [fuel] at least the
    number of rows still below [rr]. *)
Fixpoint read_body (raw : Grid) (c : nat) (fuel rr : nat) : list (list Cell) :=
  match fuel with
  | 0 => []
  | S fuel' =>
      if (rr <? shape0 raw)%nat then
        let cells := iloc raw rr c (c + 6) in
        if forallb isna cells then []
        else cells :: read_body raw c fuel' (rr + 1)
      else []
  end.

(** One record of [pd.DataFrame(rows, columns=[...six labels...])]: pandas
    raises ValueError when a row has not exactly six values. *)
Definition labelled (cells : list Cell) : result Row :=
  match cells with
  | [a; b; c; d; e; f] => Ok (mkRow a b c d e f)
  | _ => Raise ValueError
  end.

Fixpoint DataFrame (rows : list (list Cell)) : result (list Row) :=
  match rows with
  | [] => Ok []
  | cells :: rows' => x ← labelled cells; df ← DataFrame rows'; Ok (x :: df)
  end.

(** [astype(str).str.strip().isin(["-", "nan", "None"])] on one name *)
Definition is_placeholder (x : Cell) : bool :=
  let s := strip (str x) in
  String.eqb s "-" || String.eqb s "nan" || String.eqb s "None".

(** Lines 42-50: the body below the anchor [(r, c)]. *)
Definition extract_table (raw : Grid) (r c : nat) : result (list Row) :=
  DataFrame (read_body raw c (shape0 raw - (r + 1)) (r + 1)).

(** Lines 52-55: the bucket column, then the placeholder filter. *)
Definition clean_frame (b : string) (df : list Row) : list Entry :=
  List.filter (fun e => negb (is_placeholder (Medicamento (row e))))
    (map (fun x => mkEntry (Str b) x) df).

(** The body of the two [for] loops at one position. *)
Definition visit (raw : Grid) (r c : nat) (cat_frames : list (list Entry))
  : result (list (list Entry)) :=
  if is_candidate raw r c then
    let header := iloc raw r c (c + 6) in
    found ← header_has_title header;
    if negb found then Ok cat_frames
    else
      df ← extract_table raw r c;
      Ok (cat_frames ++ [clean_frame (_infer_bucket raw r c) df])%list
  else Ok cat_frames.

Definition scan_rows (raw : Grid) : list nat := seq 0 (Nat.min 200 (shape0 raw)).

(** [range(min(40, raw.shape[1]-1))]; the range is empty when the frame
    has no column, as it is for [shape1 raw - 1] on [nat]. *)
Definition scan_cols (raw : Grid) : list nat := seq 0 (Nat.min 40 (shape1 raw - 1)).

Definition scan (raw : Grid) : result (list (list Entry)) :=
  for_each (scan_rows raw)
    (fun r => for_each (scan_cols raw) (fun c => visit raw r c)) [].

(** [cat["bucket"].fillna(v)] *)
Definition fillna_bucket (v : string) (cat : list Entry) : list Entry :=
  map (fun e => if isna (bucket e) then mkEntry (Str v) (row e) else e) cat.

(** The columns [drop_duplicates] compares. *)
Definition key (e : Entry) : Cell * Cell := (bucket e, Medicamento (row e)).

Fixpoint drop_from (seen : list (Cell * Cell)) (cat : list Entry) : list Entry :=
  match cat with
  | [] => []
  | e :: cat' =>
      if bool_decide (key e ∈ seen) then drop_from seen cat'
      else e :: drop_from (key e :: seen) cat'
  end.

(** [cat.drop_duplicates(subset=["bucket","Medicamento"], keep="first")] *)
Definition drop_duplicates (cat : list Entry) : list Entry := drop_from [] cat.

(** The function, from the frame of the sheet "Listas" on. *)
Definition extract_catalog_from_excel (raw : Grid) : result (list Entry) :=
  cat_frames ← scan raw;
  match cat_frames with
  | [] => Ok []
  | _ :: _ =>
      let cat := concat cat_frames in
      let cat := fillna_bucket "Desconocido" cat in
      Ok (drop_duplicates cat)
  end.

(* ================================================================== *)
(** ** [human_bucket_choices] *)

(** [df_cat[df_cat["bucket"] == b]] *)
Definition of_bucket (b : string) (df_cat : list Entry) : list Entry :=
  List.filter (fun e => bool_decide (bucket e = Str b)) df_cat.

Definition choices (df_cat : list Entry) (b : string) : list string :=
  sorted (map (fun e => str (Medicamento (row e))) (of_bucket b df_cat)).

Definition human_bucket_choices (df_cat : list Entry)
  : list string * list string * list string * list string :=
  (choices df_cat "Premedicación", choices df_cat "Anticuerpos",
   choices df_cat "Quimioterapia", choices df_cat "Otros").

(* ================================================================== *)
(** ** [write_table] of [generate_indication_xlsx] *)







(** [selections.get(k, [])] *)
Definition get_list (selections : gmap string (list string)) (k : string)
  : list string := default [] (selections !! k).

(** Lines 156-165: the names selected for a bucket. *)
Definition meds_of (selections : gmap string (list string)) (b : string)
  : list string :=
  if String.eqb b "Premedicación" then get_list selections "premedicacion"
  else if String.eqb b "Anticuerpos" then get_list selections "anticuerpos"
  else if String.eqb b "Quimioterapia" then get_list selections "quimioterapia"
  else if String.eqb b "Otros" then get_list selections "otros"
  else get_list selections (lower b).


(* ================================================================== *)
(** ** [generate_indication_xlsx] *)







(* ================================================================== *)
(** ** [app.py] *)

(** [x or []] for a list or [None] *)
Definition or_empty (x : option (list string)) : list string :=
  match x with
  | None => []
  | Some [] => []
  | Some l => l
  end.

(** The dict [selections] of lines 67-72 of [on_generate]. *)
Definition on_generate_selections (prem acs qx otros : option (list string))
  : gmap string (list string) :=
  <["premedicacion" := or_empty prem]>
    (<["anticuerpos" := or_empty acs]>
       (<["quimioterapia" := or_empty qx]>
          (<["otros" := or_empty otros]> ∅))).



(* ================================================================== *)
(** ** Notions the properties are stated with *)

(** The six positions [c .. c+5] of row [rr] hold no value. *)
Definition blank_row (raw : Grid) (rr c : nat) : Prop :=
  forall j, j < 6 -> iat raw rr (c + j) = NaN.

(** The six cells [c .. c+5] of row [rr], under the six labels. *)
Definition row_at (raw : Grid) (rr c : nat) : Row :=
  mkRow (iat raw rr c) (iat raw rr (c + 1)) (iat raw rr (c + 2))
        (iat raw rr (c + 3)) (iat raw rr (c + 4)) (iat raw rr (c + 5)).

(** [body] holds the rows below the anchor [(r, c)] up to, and without,
    the first blank row, each under the six labels. *)
Definition table_body_of (raw : Grid) (r c : nat) (body : list Row) : Prop :=
  (forall i, i < length body ->
     ~ blank_row raw (r + 1 + i) c /\
     r + 1 + i < shape0 raw /\
     body !! i = Some (row_at raw (r + 1 + i) c)) /\
  (r + 1 + length body < shape0 raw -> blank_row raw (r + 1 + length body) c).







(** The positions the two [for] loops go through, in their order. *)
Definition visited (raw : Grid) : list (nat * nat) :=
  flat_map (fun r => map (pair r) (scan_cols raw)) (scan_rows raw).

(** The two checks of lines 36 and 39 on the cell at [(r, c)]. *)
Definition validated (raw : Grid) (r c : nat) : bool :=
  is_candidate raw r c &&
  match iat raw r c with
  | Str s => contains "Medicamento" s
  | _ => false
  end.

(** The anchors below which a table is read. *)
Definition anchors (raw : Grid) : list (nat * nat) :=
  List.filter (fun p => validated raw (fst p) (snd p)) (visited raw).

(** The frame appended for the anchor [(r, c)]. *)
Definition frame_at (raw : Grid) (r c : nat) (df : list Entry) : Prop :=
  exists body, extract_table raw r c = Ok body /\
               df = clean_frame (_infer_bucket raw r c) body.

(* ================================================================== *)
(** ** Sample sheets *)

Definition six_headers : list Cell :=
  [Str "Medicamento"; Str "Dosis"; Str "Solución"; Str "VS"; Str "Tiempo"; Str "Via"].

(** The example of the specification: the header at row 10, column 2,
    the title at row 4, two rows below the header, then a blank row. *)
Definition spec_sheet : Grid :=
  [ []; []; []; [];
    [NaN; NaN; Str "PREMEDICACIÓN"];
    []; []; []; []; [];
    [NaN; NaN] ++ six_headers;
    [NaN; NaN; Str "Dexametasona"; Str "8 mg"; Str "NaCl 0.9%"; Int 100; Str "15 min"; Str "IV"];
    [NaN; NaN; Str "-"; NaN; NaN; NaN; NaN; NaN];
    [] ]%list.

(** A table with a row without name, a separator row, a row with only
    a name, and a row after the blank row. *)
Definition sample_sheet : Grid :=
  [ [Str "PREMEDICACIÓN"];
    six_headers;
    [Str "Dexametasona"; Str "8 mg"; Str "NaCl 0.9%"; Int 100; Str "15 min"; Str "IV"];
    [NaN; Str "4 mg"; NaN; NaN; NaN; NaN];
    [Str " - "; NaN; NaN; NaN; NaN; Str "IV"];
    [Str "Ondansetron"; NaN; NaN; NaN; NaN; NaN];
    [];
    [Str "Paracetamol"; Str "1 g"; NaN; NaN; NaN; Str "VO"] ].

Definition sample_catalog : list Entry :=
  [ mkEntry (Str "Premedicación")
      (mkRow (Str "Dexametasona") (Str "8 mg") (Str "NaCl 0.9%") (Int 100)
             (Str "15 min") (Str "IV"));
    mkEntry (Str "Premedicación")
      (mkRow (Str "Ondansetron") NaN NaN NaN NaN NaN) ].

(** The same list twice, side by side, with different doses. *)
Definition twice_sheet : Grid :=
  [ [Str "Premedicación"; NaN; NaN; NaN; NaN; NaN; NaN; Str "Premedicación"];
    (six_headers ++ [NaN] ++ six_headers)%list;
    [Str "Dexametasona"; Str "8 mg"; NaN; NaN; NaN; NaN; NaN;
     Str "Dexametasona"; Str "16 mg"; NaN; NaN; NaN; NaN] ].

Definition twice_catalog : list Entry :=
  [ mkEntry (Str "Premedicación")
      (mkRow (Str "Dexametasona") (Str "8 mg") NaN NaN NaN NaN) ].

(** A sheet of two columns only. *)
Definition narrow_sheet : Grid :=
  [ [Str "Medicamento"; Str "Dosis"];
    [Str "Paracetamol"; Str "1 g"] ].

(** The anchor word in the last column of the sheet. *)
Definition last_column_sheet : Grid :=
  [ [Str "Dosis"; Str "Medicamento"];
    [Str "1 g"; Str "Paracetamol"] ].

(** A name typed as the text 5 and a name typed as the number 5. *)
Definition mixed_names_sheet : Grid :=
  [ [Str "Premedicación"];
    six_headers;
    [Str "5"; Str "1 g"; NaN; NaN; NaN; NaN];
    [Int 5; Str "2 g"; NaN; NaN; NaN; NaN] ].

Definition mixed_names_catalog : list Entry :=
  [ mkEntry (Str "Premedicación") (mkRow (Str "5") (Str "1 g") NaN NaN NaN NaN);
    mkEntry (Str "Premedicación") (mkRow (Int 5) (Str "2 g") NaN NaN NaN NaN) ].



(* ================================================================== *)
(** ** Facts about the string built-ins *)

Section PyStrFacts.

Lemma app_cons (a : ascii) (s t : string) :
  String a s +:+ t = String a (s +:+ t).
Proof. reflexivity. Qed.


Lemma prefix_app (pat s : string) :
  String.prefix pat s = true <-> exists post, s = pat +:+ post.
Proof.
  revert s; induction pat as [|a pat IH]; intros s; simpl.
  - split; [intros _; exists s; reflexivity | destruct s; reflexivity].
  - destruct s as [|b s]; simpl.
    + split; [discriminate | intros [post H]; rewrite app_cons in H; discriminate].
    + destruct (ascii_dec a b) as [->|Hab].
      * rewrite IH. split; intros [post H]; exists post; rewrite app_cons in *; congruence.
      * split; [discriminate | intros [post H]; rewrite app_cons in H; congruence].
Qed.

Lemma contains_nil (pat : string) :
  contains pat EmptyString = String.prefix pat EmptyString.
Proof. simpl. apply orb_false_r. Qed.

Lemma contains_cons (pat : string) (b : ascii) (s : string) :
  contains pat (String b s) = String.prefix pat (String b s) || contains pat s.
Proof. reflexivity. Qed.

(** [contains] is the substring test. *)
Lemma contains_spec (pat s : string) :
  contains pat s = true <-> exists pre post, s = pre +:+ pat +:+ post.
Proof.
  induction s as [|b s IH].
  - rewrite contains_nil, prefix_app. split.
    + intros [post H]. exists EmptyString, post. exact H.
    + intros [[|a pre] [post H]];
        [exists post; exact H | rewrite app_cons in H; discriminate].
  - rewrite contains_cons, orb_true_iff, prefix_app, IH. split.
    + intros [[post H]|[pre [post H]]].
      * exists EmptyString, post. exact H.
      * exists (String b pre), post. rewrite app_cons. congruence.
    + intros [[|a pre] [post H]].
      * left. exists post. exact H.
      * right. exists pre, post. rewrite app_cons in H. congruence.
Qed.

Lemma lstrip_keeps (ch : ascii) (s : string) :
  is_space ch = false -> lstrip (String ch s) = String ch s.
Proof. intros H. simpl. rewrite H. reflexivity. Qed.

Lemma rstrip_keeps (ch : ascii) (s : string) :
  is_space ch = false -> exists t, rstrip (String ch s) = String ch t.
Proof.
  intros H. simpl. destruct (rstrip s) as [|a t].
  - rewrite H. eexists; reflexivity.
  - eexists; reflexivity.
Qed.

(** A text whose first character is neither white space nor a letter m
    is not the anchor word. *)
Lemma not_anchor_word (ch : ascii) (s : string) :
  is_space ch = false -> lower_char ch <> "m"%char ->
  lower (strip (String ch s)) <> "medicamento".
Proof.
  intros Hsp Hm. unfold strip. rewrite lstrip_keeps by exact Hsp.
  destruct (rstrip_keeps ch s Hsp) as [t ->]. simpl. congruence.
Qed.

Lemma string_of_uint_head (d : Decimal.uint) :
  exists ch s, NilZero.string_of_uint d = String ch s /\ digit_or_minus ch = true.
Proof. destruct d; simpl; eexists; eexists; (split; [reflexivity|reflexivity]). Qed.

Lemma str_of_int_head (z : Z) :
  exists ch s, str_of_int z = String ch s /\ digit_or_minus ch = true.
Proof.
  unfold str_of_int, NilZero.string_of_int.
  destruct (Z.to_int z) as [d|d].
  - apply string_of_uint_head.
  - eexists; eexists; split; reflexivity.
Qed.

Lemma digit_or_minus_plain (ch : ascii) :
  digit_or_minus ch = true -> is_space ch = false /\ lower_char ch <> "m"%char.
Proof.
  destruct ch as [[] [] [] [] [] [] [] []]; vm_compute; intros H;
    first [discriminate H | split; [reflexivity | discriminate]].
Qed.

Lemma int_not_anchor_word (z : Z) :
  lower (strip (str_of_int z)) <> "medicamento".
Proof.
  destruct (str_of_int_head z) as (ch & s & -> & Hd).
  destruct (digit_or_minus_plain ch Hd). apply not_anchor_word; assumption.
Qed.

End PyStrFacts.

(* ================================================================== *)
(** ** Facts about the frame *)

Section FrameFacts.

Lemma row_within_shape1 (raw : Grid) (cells : list Cell) :
  In cells raw -> length cells <= shape1 raw.
Proof.
  induction raw as [|x raw IH]; simpl; [tauto|].
  intros [->|H]; [lia | specialize (IH H); lia].
Qed.

Lemma iat_below (raw : Grid) (r c : nat) :
  shape0 raw <= r -> iat raw r c = NaN.
Proof.
  intros H. unfold iat. rewrite (nth_overflow raw [] H). destruct c; reflexivity.
Qed.

Lemma iat_right (raw : Grid) (r c : nat) :
  shape1 raw <= c -> iat raw r c = NaN.
Proof.
  intros H. unfold iat. apply nth_overflow.
  destruct (Nat.lt_ge_cases r (length raw)) as [Hr|Hr].
  - pose proof (row_within_shape1 raw (nth r raw []) (nth_In raw [] Hr)). lia.
  - rewrite (nth_overflow raw [] Hr). simpl. lia.
Qed.

Lemma iloc_length (raw : Grid) (r a b : nat) :
  length (iloc raw r a b) = Nat.min b (shape1 raw) - a.
Proof. unfold iloc. rewrite length_map, length_seq. reflexivity. Qed.

Lemma iloc_nth (raw : Grid) (r a b j : nat) :
  j < Nat.min b (shape1 raw) - a -> nth j (iloc raw r a b) NaN = iat raw r (a + j).
Proof.
  intros H. unfold iloc.
  rewrite (nth_indep _ NaN (iat raw r 0)) by (rewrite length_map, length_seq; exact H).
  rewrite map_nth, seq_nth by exact H. reflexivity.
Qed.

Lemma iloc_In (raw : Grid) (r a b : nat) (x : Cell) :
  In x (iloc raw r a b) <-> exists j, a <= j < Nat.min b (shape1 raw) /\ x = iat raw r j.
Proof.
  unfold iloc. rewrite in_map_iff. split.
  - intros (j & <- & Hj). apply in_seq in Hj. exists j. split; [lia | reflexivity].
  - intros (j & Hj & ->). exists j. split; [reflexivity | apply in_seq; lia].
Qed.

(** Inside the frame a six-cell slice is the six cells themselves. *)
Lemma iloc_six (raw : Grid) (r c : nat) :
  c + 6 <= shape1 raw ->
  iloc raw r c (c + 6) =
    [iat raw r c; iat raw r (c + 1); iat raw r (c + 2);
     iat raw r (c + 3); iat raw r (c + 4); iat raw r (c + 5)].
Proof.
  intros H. unfold iloc.
  replace (Nat.min (c + 6) (shape1 raw) - c) with 6 by lia.
  simpl. repeat f_equal; lia.
Qed.

(** The slice of an anchor starts with the anchor cell. *)
Lemma iloc_head (raw : Grid) (r c b : nat) :
  c < b -> c < shape1 raw ->
  exists rest, iloc raw r c b = iat raw r c :: rest.
Proof.
  intros Hb Hc. unfold iloc.
  destruct (Nat.min b (shape1 raw) - c) as [|n] eqn:E; [lia|].
  simpl. eexists; reflexivity.
Qed.

(** The slice is all-empty exactly when the six positions hold no value,
    a position to the right of the frame holding none. *)
Lemma blank_slice (raw : Grid) (r c : nat) :
  forallb isna (iloc raw r c (c + 6)) = true <->
  forall j, j < 6 -> iat raw r (c + j) = NaN.
Proof.
  rewrite forallb_forall. split.
  - intros H j Hj.
    destruct (Nat.lt_ge_cases (c + j) (shape1 raw)) as [Hin|Hout];
      [|apply iat_right; exact Hout].
    assert (Hx : In (iat raw r (c + j)) (iloc raw r c (c + 6))).
    { apply iloc_In. exists (c + j). split; [lia | reflexivity]. }
    specialize (H _ Hx). destruct (iat raw r (c + j)); [reflexivity|discriminate..].
  - intros H x Hx. apply iloc_In in Hx. destruct Hx as (j & Hj & ->).
    replace j with (c + (j - c)) by lia. rewrite H by lia. reflexivity.
Qed.

End FrameFacts.

(* ================================================================== *)
(** ** The bucket of an anchor *)

Section InferBucket.

Lemma rows_above_In (r up : nat) : In up (rows_above r) <-> r - 8 <= up < r.
Proof.
  unfold rows_above. rewrite <- in_rev, in_seq. simpl. lia.
Qed.

(** The rows above [r] are visited from [r - 1] upwards. *)
Lemma rows_above_split (r up : nat) :
  r - 8 <= up < r ->
  rows_above r =
    (rev (seq (up + 1) (r - (up + 1))) ++ up :: rev (seq (r - 8) (up - (r - 8))))%list.
Proof.
  intros H. unfold rows_above. simpl Nat.max.
  replace (r - (r - 8)) with ((up - (r - 8)) + S (r - (up + 1))) by lia.
  rewrite seq_app, rev_app_distr.
  replace (r - 8 + (up - (r - 8))) with up by lia.
  change (seq up (S (r - (up + 1)))) with (up :: seq (S up) (r - (up + 1))).
  simpl rev. rewrite <- app_assoc. simpl.
  replace (S up) with (up + 1) by lia. reflexivity.
Qed.

Lemma infer_loop_skip (raw : Grid) (c : nat) (near rest : list nat) :
  (forall up, In up near -> title_of (row_text raw up c) = None) ->
  infer_loop raw c (near ++ rest) = infer_loop raw c rest.
Proof.
  induction near as [|up near IH]; intros H; simpl; [reflexivity|].
  rewrite (H up) by (left; reflexivity).
  apply IH. intros up' Hup'. apply H. right. exact Hup'.
Qed.

Lemma infer_loop_range (raw : Grid) (c : nat) (ups : list nat) :
  In (infer_loop raw c ups)
     ["Premedicación"; "Anticuerpos"; "Quimioterapia"; "Otros"; "Catálogo"].
Proof.
  induction ups as [|up ups IH]; simpl infer_loop.
  - simpl. tauto.
  - unfold title_of.
    destruct (contains "premedic" _); [simpl; tauto|].
    destruct (contains "anticuerp" _); [simpl; tauto|].
    destruct (contains "quimiot" _); [simpl; tauto|].
    destruct (contains "otros" _); [simpl; tauto|].
    exact IH.
Qed.

(** [_infer_bucket] returns one of five strings, whatever the frame. *)
Lemma infer_bucket_range (raw : Grid) (r c : nat) :
  In (_infer_bucket raw r c)
     ["Premedicación"; "Anticuerpos"; "Quimioterapia"; "Otros"; "Catálogo"].
Proof. apply infer_loop_range. Qed.

(** C2.  Bucket inference looks at the rows [r-1] down to [max(0, r-8)],
    nearest first, in the columns [max(0, c-2) .. c]; the text of a row is
    its cells, lower-cased and joined; the four titles are tested in the
    order premedic, anticuerp, quimiot, otros; the nearest row with a
    title decides; without any, and in particular for [r = 0], the result
    is the sentinel "Catálogo". *)
Theorem C2_infer_bucket (raw : Grid) (r c : nat) :
  (forall up, In up (rows_above r) <-> Nat.max 0 (r - 8) <= up < r) /\
  (forall up, c < shape1 raw ->
     row_text raw up c =
       join " " (map (fun j => lower (str (iat raw up j)))
                     (seq (Nat.max 0 (c - 2)) (c + 1 - Nat.max 0 (c - 2))))) /\
  (forall txt,
     (contains "premedic" txt = true -> title_of txt = Some "Premedicación") /\
     (contains "premedic" txt = false -> contains "anticuerp" txt = true ->
        title_of txt = Some "Anticuerpos") /\
     (contains "premedic" txt = false -> contains "anticuerp" txt = false ->
        contains "quimiot" txt = true -> title_of txt = Some "Quimioterapia") /\
     (contains "premedic" txt = false -> contains "anticuerp" txt = false ->
        contains "quimiot" txt = false -> contains "otros" txt = true ->
        title_of txt = Some "Otros") /\
     (contains "premedic" txt = false -> contains "anticuerp" txt = false ->
        contains "quimiot" txt = false -> contains "otros" txt = false ->
        title_of txt = None)) /\
  (forall up b,
     Nat.max 0 (r - 8) <= up < r ->
     title_of (row_text raw up c) = Some b ->
     (forall up', up < up' < r -> title_of (row_text raw up' c) = None) ->
     _infer_bucket raw r c = b) /\
  ((forall up, Nat.max 0 (r - 8) <= up < r -> title_of (row_text raw up c) = None) ->
     _infer_bucket raw r c = "Catálogo") /\
  (r = 0 -> _infer_bucket raw r c = "Catálogo").
Proof.
  simpl Nat.max.
  split; [intros up; apply rows_above_In|].
  split.
  { intros up Hc. unfold row_text, iloc. simpl Nat.max.
    rewrite map_map. replace (Nat.min (c + 1) (shape1 raw)) with (c + 1) by lia.
    reflexivity. }
  split.
  { intros txt. unfold title_of.
    repeat split; intros; repeat match goal with H : contains _ _ = _ |- _ => rewrite H; clear H end;
      reflexivity. }
  split.
  { intros up b Hup Hb Hnear. unfold _infer_bucket.
    rewrite (rows_above_split r up Hup), infer_loop_skip.
    + simpl. rewrite Hb. reflexivity.
    + intros up' Hup'. apply in_rev, in_seq in Hup'. apply Hnear. lia. }
  split.
  { intros H. unfold _infer_bucket.
    rewrite <- (app_nil_r (rows_above r)), infer_loop_skip; [reflexivity|].
    intros up Hup. apply H, rows_above_In, Hup. }
  intros ->. reflexivity.
Qed.

End InferBucket.

(* ================================================================== *)
(** ** The body of a table *)

Section TableBody.

(** The loop stops on the row test or the blank test, never on the fuel. *)
Lemma read_body_rows (raw : Grid) (c fuel rr : nat) :
  shape0 raw - rr <= fuel ->
  let rows := read_body raw c fuel rr in
  (forall i, i < length rows ->
     rows !! i = Some (iloc raw (rr + i) c (c + 6)) /\
     forallb isna (iloc raw (rr + i) c (c + 6)) = false /\
     rr + i < shape0 raw) /\
  (rr + length rows < shape0 raw ->
     forallb isna (iloc raw (rr + length rows) c (c + 6)) = true).
Proof.
  revert rr. induction fuel as [|fuel IH]; intros rr Hfuel; simpl.
  - split; [intros i Hi; lia | intros H; lia].
  - destruct (Nat.ltb_spec rr (shape0 raw)) as [Hrr|Hrr]; simpl;
      [|split; [intros i Hi; lia | intros H; lia]].
    destruct (forallb isna (iloc raw rr c (c + 6))) eqn:Hblank; simpl.
    + split; [intros i Hi; lia|]. intros _. rewrite Nat.add_0_r. exact Hblank.
    + destruct (IH (rr + 1)) as [Hrows Hstop]; [lia|]. split.
      * intros [|i] Hi.
        -- rewrite Nat.add_0_r. simpl. auto.
        -- destruct (Hrows i) as (H1 & H2 & H3); [lia|].
           replace (rr + S i) with (rr + 1 + i) by lia. simpl. auto.
      * intros H. replace (rr + S (length (read_body raw c fuel (rr + 1))))
          with (rr + 1 + length (read_body raw c fuel (rr + 1))) in * by lia.
        apply Hstop. exact H.
Qed.

Lemma labelled_six (cells : list Cell) (x : Row) :
  labelled cells = Ok x ->
  cells = [Medicamento x; Dosis x; Solucion x; VS x; Tiempo x; Via x].
Proof.
  destruct cells as [|a [|b [|c [|d [|e [|f [|g cells]]]]]]]; simpl; try discriminate.
  intros [= <-]. reflexivity.
Qed.

Lemma DataFrame_rows (rows : list (list Cell)) (df : list Row) :
  DataFrame rows = Ok df ->
  length df = length rows /\
  forall i cells, rows !! i = Some cells ->
    exists x, df !! i = Some x /\ labelled cells = Ok x.
Proof.
  revert df; induction rows as [|cells rows IH]; intros df; simpl.
  - intros [= <-]. split; [reflexivity | intros i cells' H; discriminate].
  - destruct (labelled cells) as [x|] eqn:Hx; simpl; [|discriminate].
    destruct (DataFrame rows) as [df'|] eqn:Hdf; simpl; [|discriminate].
    intros [= <-]. destruct (IH df' eq_refl) as [Hlen Hnth]. split; [simpl; lia|].
    intros [|i] cells' H; simpl in *.
    + injection H as <-. exists x. auto.
    + apply Hnth. exact H.
Qed.

Lemma DataFrame_total (rows : list (list Cell)) :
  Forall (fun cells => length cells = 6) rows -> exists df, DataFrame rows = Ok df.
Proof.
  induction 1 as [|cells rows Hc _ [df IH]]; simpl; [eexists; reflexivity|].
  destruct cells as [|a [|b [|c [|d [|e [|f [|g cells]]]]]]]; try discriminate.
  simpl. rewrite IH. simpl. eexists; reflexivity.
Qed.

Lemma labelled_iloc (raw : Grid) (rr c : nat) (x : Row) :
  labelled (iloc raw rr c (c + 6)) = Ok x -> x = row_at raw rr c.
Proof.
  intros H. pose proof (labelled_six _ _ H) as E.
  assert (Hlen : c + 6 <= shape1 raw).
  { pose proof (iloc_length raw rr c (c + 6)) as L. rewrite E in L. simpl in L. lia. }
  rewrite (iloc_six raw rr c Hlen) in E. destruct x; simpl in E.
  unfold row_at. congruence.
Qed.

(** The table below an anchor, whenever one is returned. *)
Lemma extract_table_body (raw : Grid) (r c : nat) (body : list Row) :
  extract_table raw r c = Ok body -> table_body_of raw r c body.
Proof.
  unfold extract_table. intros H.
  destruct (DataFrame_rows _ _ H) as [Hlen Hnth].
  destruct (read_body_rows raw c (shape0 raw - (r + 1)) (r + 1) (Nat.le_refl _))
    as [Hrows Hstop].
  rewrite <- Hlen in Hrows, Hstop. split.
  - intros i Hi. destruct (Hrows i Hi) as (H1 & H2 & H3).
    destruct (Hnth i _ H1) as (x & Hx & Hlab).
    split; [|split; [exact H3|]].
    + intros Hb. apply blank_slice in Hb. congruence.
    + rewrite Hx. f_equal. apply labelled_iloc. exact Hlab.
  - intros Hlt. exact (proj1 (blank_slice _ _ _) (Hstop Hlt)).
Qed.

(** With the six columns inside the frame the table is always returned. *)
Lemma extract_table_total (raw : Grid) (r c : nat) :
  c + 6 <= shape1 raw -> exists body, extract_table raw r c = Ok body.
Proof.
  intros Hc. apply DataFrame_total, Forall_forall. intros cells Hin.
  apply list_elem_of_lookup in Hin. destruct Hin as [i Hi].
  destruct (read_body_rows raw c (shape0 raw - (r + 1)) (r + 1) (Nat.le_refl _))
    as [Hrows _].
  destruct (Hrows i) as (H1 & _); [apply lookup_lt_Some in Hi; exact Hi|].
  rewrite H1 in Hi. injection Hi as <-. rewrite iloc_length. lia.
Qed.

(** C1 (amended).  Below an anchor [(r, c)] whose columns [c .. c+5] lie
    inside the frame, extraction returns a table; and whenever extraction
    returns a table, its rows are the rows [r+1], [r+2], ... of the six
    columns, none of them blank, each under the six labels in their order,
    and the row after the last one read, if the frame has one, is blank:
    the body stops at the first blank row and holds neither that row nor
    a later one. *)
Theorem C1_table_body (raw : Grid) (r c : nat) :
  (c + 6 <= shape1 raw -> exists body, extract_table raw r c = Ok body) /\
  (forall body, extract_table raw r c = Ok body -> table_body_of raw r c body).
Proof.
  split; [apply extract_table_total | apply extract_table_body].
Qed.

End TableBody.

(* ================================================================== *)
(** ** The scan of the sheet *)

Section Scan.

Lemma for_each_app {A S : Type} (xs ys : list A) (body : A -> S -> result S) (s : S) :
  for_each (xs ++ ys) body s = (s' ← for_each xs body s; for_each ys body s').
Proof.
  revert s; induction xs as [|x xs IH]; intros s; simpl; [reflexivity|].
  destruct (body x s) as [s'|e]; simpl; [apply IH | reflexivity].
Qed.

Lemma for_each_pairs {S : Type} (r : nat) (cols : list nat)
  (body : nat * nat -> S -> result S) (s : S) :
  for_each (map (pair r) cols) body s = for_each cols (fun c => body (r, c)) s.
Proof.
  revert s; induction cols as [|c cols IH]; intros s; simpl; [reflexivity|].
  destruct (body (r, c) s); simpl; [apply IH | reflexivity].
Qed.

(** The two nested loops are one loop over the visited positions. *)
Lemma scan_visited (raw : Grid) :
  scan raw = for_each (visited raw) (fun p => visit raw (fst p) (snd p)) [].
Proof.
  unfold scan, visited. generalize (@nil (list Entry)) as s.
  induction (scan_rows raw) as [|r rows IH]; intros s; simpl; [reflexivity|].
  rewrite for_each_app, for_each_pairs. simpl.
  destruct (for_each (scan_cols raw) _ s); simpl; [apply IH | reflexivity].
Qed.

Lemma visited_In (raw : Grid) (r c : nat) :
  In (r, c) (visited raw) <->
  r < Nat.min 200 (shape0 raw) /\ c < Nat.min 40 (shape1 raw - 1).
Proof.
  unfold visited, scan_rows, scan_cols. rewrite in_flat_map. split.
  - intros (r' & Hr & Hc). apply in_map_iff in Hc. destruct Hc as (c' & [= <- <-] & Hc).
    apply in_seq in Hr, Hc. lia.
  - intros [Hr Hc]. exists r. split; [apply in_seq; lia|].
    apply in_map_iff. exists c. split; [reflexivity | apply in_seq; lia].
Qed.

(** Only a text can pass the test of line 36. *)
Lemma candidate_is_text (raw : Grid) (r c : nat) :
  is_candidate raw r c = true -> exists s, iat raw r c = Str s.
Proof.
  unfold is_candidate. intros H. apply String.eqb_eq in H.
  destruct (iat raw r c) as [|s|z]; simpl in H.
  - discriminate H.
  - exists s. reflexivity.
  - destruct (int_not_anchor_word z H).
Qed.

(** What the loop body does at a position whose column is in the frame. *)
Lemma visit_cases (raw : Grid) (r c : nat) (frames : list (list Entry)) :
  c < shape1 raw ->
  visit raw r c frames =
    if validated raw r c
    then df ← extract_table raw r c;
         Ok (frames ++ [clean_frame (_infer_bucket raw r c) df])%list
    else Ok frames.
Proof.
  intros Hc. unfold visit, validated.
  destruct (is_candidate raw r c) eqn:Hcand; simpl; [|reflexivity].
  destruct (candidate_is_text raw r c Hcand) as [s Hs].
  destruct (iloc_head raw r c (c + 6)) as [rest ->]; [lia | exact Hc |].
  rewrite Hs. simpl. destruct (contains "Medicamento" s); reflexivity.
Qed.

Lemma for_each_visit (raw : Grid) (ps : list (nat * nat)) (frames0 frames : list (list Entry)) :
  (forall p, In p ps -> snd p < shape1 raw) ->
  for_each ps (fun p => visit raw (fst p) (snd p)) frames0 = Ok frames ->
  exists new, frames = (frames0 ++ new)%list /\
    Forall2 (fun p df => frame_at raw (fst p) (snd p) df)
            (List.filter (fun p => validated raw (fst p) (snd p)) ps) new.
Proof.
  revert frames0; induction ps as [|[r c] ps IH]; intros frames0 Hin; simpl.
  - intros [= <-]. exists []. rewrite app_nil_r. split; [reflexivity | constructor].
  - rewrite visit_cases by (apply (Hin (r, c)); left; reflexivity).
    destruct (validated raw r c) eqn:Hv; simpl.
    + destruct (extract_table raw r c) as [body|e] eqn:Hbody; simpl; [|discriminate].
      intros H. apply IH in H; [|intros p Hp; apply Hin; right; exact Hp].
      destruct H as (new & -> & Hnew).
      exists (clean_frame (_infer_bucket raw r c) body :: new).
      rewrite <- app_assoc. split; [reflexivity|].
      constructor; [exists body; auto | exact Hnew].
    + intros H. apply IH in H; [exact H | intros p Hp; apply Hin; right; exact Hp].
Qed.

Lemma for_each_visit_total (raw : Grid) (ps : list (nat * nat)) (frames0 : list (list Entry)) :
  (forall p, In p ps -> snd p < shape1 raw) ->
  (forall p, In p ps -> validated raw (fst p) (snd p) = true -> snd p + 6 <= shape1 raw) ->
  exists frames, for_each ps (fun p => visit raw (fst p) (snd p)) frames0 = Ok frames.
Proof.
  revert frames0; induction ps as [|[r c] ps IH]; intros frames0 Hin Hwide; simpl.
  - eexists; reflexivity.
  - rewrite visit_cases by (apply (Hin (r, c)); left; reflexivity).
    assert (Hin' : forall p, In p ps -> snd p < shape1 raw)
      by (intros p Hp; apply Hin; right; exact Hp).
    assert (Hwide' : forall p, In p ps -> validated raw (fst p) (snd p) = true ->
                               snd p + 6 <= shape1 raw)
      by (intros p Hp; apply Hwide; right; exact Hp).
    destruct (validated raw r c) eqn:Hv; simpl.
    + destruct (extract_table_total raw r c) as [body ->].
      { apply (Hwide (r, c)); [left; reflexivity | exact Hv]. }
      simpl. apply IH; assumption.
    + apply IH; assumption.
Qed.

Lemma visited_in_frame (raw : Grid) (p : nat * nat) :
  In p (visited raw) -> snd p < shape1 raw.
Proof. destruct p as [r c]. rewrite visited_In. cbn [snd]. lia. Qed.

(** The frames collected by the scan: one per anchor, in scan order. *)
Lemma scan_frames (raw : Grid) (frames : list (list Entry)) :
  scan raw = Ok frames ->
  Forall2 (fun p df => frame_at raw (fst p) (snd p) df) (anchors raw) frames.
Proof.
  rewrite scan_visited. intros H.
  apply for_each_visit in H; [|apply visited_in_frame].
  destruct H as (new & -> & Hnew). exact Hnew.
Qed.

(** The function returns whenever every anchor has its six columns. *)
Lemma extract_catalog_total (raw : Grid) :
  (forall r c, In (r, c) (anchors raw) -> c + 6 <= shape1 raw) ->
  exists cat, extract_catalog_from_excel raw = Ok cat.
Proof.
  intros Hwide. unfold extract_catalog_from_excel. rewrite scan_visited.
  destruct (for_each_visit_total raw (visited raw) []) as [frames ->].
  - apply visited_in_frame.
  - intros [r c] Hp Hv. apply (Hwide r c). apply filter_In. auto.
  - simpl. destruct frames; eexists; reflexivity.
Qed.


(** C6 (amended).  The positions the scan looks at are those of the first
    200 rows and of the first 40 columns without the last column of the
    frame; the anchors are the validated cells at these positions. *)
Theorem C6_scan_window (raw : Grid) (r c : nat) :
  (In (r, c) (visited raw) <->
     r < Nat.min 200 (shape0 raw) /\ c < Nat.min 40 (shape1 raw - 1)) /\
  (In (r, c) (anchors raw) <->
     validated raw r c = true /\
     r < Nat.min 200 (shape0 raw) /\ c < Nat.min 40 (shape1 raw - 1)) /\
  scan raw = for_each (visited raw) (fun p => visit raw (fst p) (snd p)) [] /\
  (shape0 raw <= 200 -> shape1 raw <= 41 ->
     (In (r, c) (visited raw) <-> r < shape0 raw /\ c + 1 < shape1 raw)).
Proof.
  split; [apply visited_In|]. split.
  - unfold anchors. rewrite filter_In, visited_In. cbn [fst snd]. tauto.
  - split; [apply scan_visited|]. intros H0 H1. rewrite visited_In. lia.
Qed.

End Scan.

(* ================================================================== *)
(** ** The catalogue *)

Section Catalogue.

Lemma drop_from_In (seen : list (Cell * Cell)) (cat : list Entry) (e : Entry) :
  In e (drop_from seen cat) -> In e cat /\ key e ∉ seen.
Proof.
  revert seen; induction cat as [|d cat IH]; intros seen; simpl; [tauto|].
  case_bool_decide as Hd.
  - intros H. apply IH in H. tauto.
  - intros [<-|H]; [auto|]. apply IH in H. destruct H as [H1 H2].
    split; [auto|]. intros Hs. apply H2. right. exact Hs.
Qed.

Lemma drop_from_NoDup (seen : list (Cell * Cell)) (cat : list Entry) :
  NoDup (map key (drop_from seen cat)).
Proof.
  revert seen; induction cat as [|d cat IH]; intros seen; simpl; [constructor|].
  case_bool_decide as Hd; [apply IH|]. simpl. constructor; [|apply IH].
  intros Hin. apply list_elem_of_In, in_map_iff in Hin. destruct Hin as (e & He & Hin).
  apply drop_from_In in Hin. destruct Hin as [_ Hin]. apply Hin. rewrite He. left.
Qed.




Lemma fillna_bucket_id (v : string) (cat : list Entry) :
  (forall e, In e cat -> exists b, bucket e = Str b) ->
  fillna_bucket v cat = cat.
Proof.
  induction cat as [|e cat IH]; intros H; simpl; [reflexivity|].
  destruct (H e) as [b Hb]; [left; reflexivity|]. rewrite Hb. simpl.
  f_equal. apply IH. intros e' He'. apply H. right. exact He'.
Qed.

(** What a frame appended by the scan holds. *)
Lemma frame_at_In (raw : Grid) (r c : nat) (df : list Entry) (e : Entry) :
  frame_at raw r c df ->
  (In e df <->
   exists body, extract_table raw r c = Ok body /\ In (row e) body /\
     bucket e = Str (_infer_bucket raw r c) /\
     is_placeholder (Medicamento (row e)) = false).
Proof.
  intros (body & Hbody & ->). unfold clean_frame.
  rewrite filter_In, in_map_iff, negb_true_iff. split.
  - intros [(x & <- & Hx) Hp]. exists body. simpl in *. auto.
  - intros (body' & Hbody' & Hx & Hb & Hp). rewrite Hbody in Hbody'.
    injection Hbody' as <-. split; [|exact Hp]. exists (row e).
    split; [|exact Hx]. destruct e as [b x]. simpl in *. congruence.
Qed.

Lemma Forall2_In_l {A B : Type} (P : A -> B -> Prop) (l : list A) (k : list B) (x : A) :
  Forall2 P l k -> In x l -> exists y, In y k /\ P x y.
Proof.
  induction 1 as [|a b l k Hab _ IH]; simpl; [tauto|].
  intros [<-|Hx]; [exists b; auto|].
  destruct (IH Hx) as (y & Hy & Hxy). exists y. auto.
Qed.

Lemma Forall2_In_r {A B : Type} (P : A -> B -> Prop) (l : list A) (k : list B) (y : B) :
  Forall2 P l k -> In y k -> exists x, In x l /\ P x y.
Proof.
  induction 1 as [|a b l k Hab _ IH]; simpl; [tauto|].
  intros [<-|Hy]; [exists a; auto|].
  destruct (IH Hy) as (x & Hx & Hxy). exists x. auto.
Qed.

(** Every entry of the collected frames comes from a table row below an
    anchor, carries the bucket inferred there, and has a real name. *)
Lemma frames_In (raw : Grid) (frames : list (list Entry)) (e : Entry) :
  scan raw = Ok frames ->
  (In e (concat frames) <->
   exists r c body, In (r, c) (anchors raw) /\ extract_table raw r c = Ok body /\
     In (row e) body /\ bucket e = Str (_infer_bucket raw r c) /\
     is_placeholder (Medicamento (row e)) = false).
Proof.
  intros Hscan. apply scan_frames in Hscan. rewrite in_concat. split.
  - intros (df & Hdf & He).
    destruct (Forall2_In_r _ _ _ _ Hscan Hdf) as ([r c] & Hrc & Hframe).
    apply (frame_at_In raw r c df e Hframe) in He.
    destruct He as (body & He). exists r, c, body. tauto.
  - intros (r & c & body & Hrc & He).
    destruct (Forall2_In_l _ _ _ _ Hscan Hrc) as (df & Hdf & Hframe).
    exists df. split; [exact Hdf|].
    apply (frame_at_In raw r c df e Hframe). exists body. exact He.
Qed.

(** The catalogue is the de-duplicated concatenation of the frames. *)
Lemma catalogue_of_frames (raw : Grid) (cat : list Entry) :
  extract_catalog_from_excel raw = Ok cat ->
  exists frames, scan raw = Ok frames /\
    fillna_bucket "Desconocido" (concat frames) = concat frames /\
    cat = drop_duplicates (concat frames).
Proof.
  unfold extract_catalog_from_excel.
  destruct (scan raw) as [frames|err] eqn:Hscan; simpl; [|discriminate].
  assert (Hfill : fillna_bucket "Desconocido" (concat frames) = concat frames).
  { apply fillna_bucket_id. intros e He.
    apply (frames_In raw frames e Hscan) in He.
    destruct He as (r & c & body & _ & _ & _ & Hb & _). eexists; exact Hb. }
  intros H. exists frames. split; [reflexivity|]. split; [exact Hfill|].
  destruct frames as [|df frames]; [injection H as <-; reflexivity|].
  injection H as <-. f_equal. exact Hfill.
Qed.




(** C10.  Every bucket of the returned catalogue is one of the five
    strings [_infer_bucket] returns, none is "Desconocido", and filling
    the missing buckets changes no entry of the concatenated frames. *)
Theorem C10_bucket_never_desconocido (raw : Grid) (cat : list Entry) :
  extract_catalog_from_excel raw = Ok cat ->
  (forall e, In e cat ->
     bucket e <> Str "Desconocido" /\
     exists b, bucket e = Str b /\
       In b ["Premedicación"; "Anticuerpos"; "Quimioterapia"; "Otros"; "Catálogo"]) /\
  (exists frames, scan raw = Ok frames /\
     fillna_bucket "Desconocido" (concat frames) = concat frames).
Proof.
  intros H. destruct (catalogue_of_frames raw cat H) as (frames & Hscan & Hfill & ->).
  split; [|exists frames; auto].
  intros e He. apply drop_from_In in He. destruct He as [He _].
  apply (frames_In raw frames e Hscan) in He.
  destruct He as (r & c & body & _ & _ & _ & Hb & _).
  pose proof (infer_bucket_range raw r c) as Hrange. rewrite Hb. split.
  - intros [= Heq]. rewrite Heq in Hrange. simpl in Hrange.
    repeat (destruct Hrange as [Hrange|Hrange]; [discriminate Hrange|]).
    exact Hrange.
  - eexists. split; [reflexivity | exact Hrange].
Qed.


(** C9.  A row whose name cell is empty while another of its six cells
    is not does not end the table: it is read into the body of the anchor
    above it.  Its name reads "nan", so the row is a placeholder, and no
    entry of a returned catalogue has an empty name. *)
Theorem C9_missing_name_dropped (raw : Grid) (r c rr : nat) :
  iat raw rr c = NaN ->
  (exists j, 0 < j < 6 /\ iat raw rr (c + j) <> NaN) ->
  forallb isna (iloc raw rr c (c + 6)) = false /\
  (forall body, extract_table raw r c = Ok body -> r < rr ->
     (forall k, r < k < rr -> ~ blank_row raw k c) ->
     In (row_at raw rr c) body) /\
  str (Medicamento (row_at raw rr c)) = "nan" /\
  is_placeholder (Medicamento (row_at raw rr c)) = true /\
  (forall b df, ~ In (mkEntry (Str b) (row_at raw rr c)) (clean_frame b df)) /\
  (forall cat e, extract_catalog_from_excel raw = Ok cat -> In e cat ->
     Medicamento (row e) <> NaN).
Proof.
  intros Hname (j & Hj & Hcell).
  assert (Hnb : ~ blank_row raw rr c) by (intros Hb; apply Hcell, Hb; lia).
  assert (Hp : is_placeholder (Medicamento (row_at raw rr c)) = true)
    by (simpl; rewrite Hname; reflexivity).
  split.
  { destruct (forallb isna (iloc raw rr c (c + 6))) eqn:E; [|reflexivity].
    destruct (Hnb (proj1 (blank_slice raw rr c) E)). }
  split.
  { intros body Hbody Hr Hbetween.
    destruct (extract_table_body raw r c body Hbody) as [Hrows Hstop].
    assert (Hrr : rr < shape0 raw).
    { destruct (Nat.lt_ge_cases rr (shape0 raw)) as [?|Hge]; [assumption|].
      destruct Hnb. intros k _. apply iat_below. exact Hge. }
    assert (Hlen : rr - (r + 1) < length body).
    { destruct (Nat.lt_ge_cases (rr - (r + 1)) (length body)) as [?|Hge]; [assumption|].
      assert (Hb : blank_row raw (r + 1 + length body) c) by (apply Hstop; lia).
      destruct (Nat.eq_dec (r + 1 + length body) rr) as [E|E].
      - rewrite E in Hb. destruct (Hnb Hb).
      - destruct (Hbetween (r + 1 + length body)); [lia | exact Hb]. }
    destruct (Hrows _ Hlen) as (_ & _ & Hrow).
    replace (r + 1 + (rr - (r + 1))) with rr in Hrow by lia.
    apply list_elem_of_In, list_elem_of_lookup. eexists; exact Hrow. }
  split; [simpl; rewrite Hname; reflexivity|].
  split; [exact Hp|]. split.
  { intros b df Hin. unfold clean_frame in Hin. apply filter_In in Hin.
    destruct Hin as [_ Hin]. simpl in Hin. rewrite Hname in Hin. discriminate Hin. }
  intros cat e Hcat He Hnan.
  destruct (catalogue_of_frames raw cat Hcat) as (frames & Hscan & _ & ->).
  apply drop_from_In in He. destruct He as [He _].
  apply (frames_In raw frames e Hscan) in He.
  destruct He as (_ & _ & _ & _ & _ & _ & _ & Hpe).
  rewrite Hnan in Hpe. discriminate Hpe.
Qed.

End Catalogue.

(* ================================================================== *)
(** ** The choices offered for a bucket *)

Section Choices.

(** The order of [sorted] on strings. *)
Lemma ascii_compare_trans (a b c : ascii) (o : comparison) :
  Ascii.compare a b = o -> Ascii.compare b c = o -> Ascii.compare a c = o.
Proof.
  unfold Ascii.compare. intros <-.
  destruct (N.compare_spec (N_of_ascii a) (N_of_ascii b)) as [E|E|E]; intros H.
  - rewrite E. exact H.
  - apply N.compare_lt_iff. apply (N.lt_trans _ (N_of_ascii b)); [exact E|].
    apply N.compare_lt_iff. exact H.
  - apply N.compare_gt_iff. apply (N.lt_trans _ (N_of_ascii b)); [|exact E].
    apply N.compare_gt_iff. exact H.
Qed.

Lemma ascii_compare_eq_l (a b c : ascii) :
  Ascii.compare a b = Eq -> Ascii.compare a c = Ascii.compare b c.
Proof. intros H. apply Ascii.compare_eq_iff in H. rewrite H. reflexivity. Qed.

Lemma ascii_compare_eq_r (a b c : ascii) :
  Ascii.compare b c = Eq -> Ascii.compare a c = Ascii.compare a b.
Proof. intros H. apply Ascii.compare_eq_iff in H. rewrite H. reflexivity. Qed.

Lemma leb_trans (s1 s2 s3 : string) :
  String.leb s1 s2 = true -> String.leb s2 s3 = true -> String.leb s1 s3 = true.
Proof.
  unfold String.leb. revert s2 s3.
  induction s1 as [|a s1 IH]; intros [|b s2] [|c s3]; simpl; try (intros; congruence).
  destruct (Ascii.compare a b) eqn:Hab.
  - rewrite (ascii_compare_eq_l a b c Hab).
    destruct (Ascii.compare b c) eqn:Hbc; try (intros; congruence). apply IH.
  - destruct (Ascii.compare b c) eqn:Hbc.
    + rewrite (ascii_compare_eq_r a b c Hbc), Hab. reflexivity.
    + rewrite (ascii_compare_trans a b c Lt Hab Hbc). reflexivity.
    + intros _ H. discriminate H.
  - intros H. discriminate H.
Qed.

Lemma insert_sorted_perm (x : string) (l : list string) :
  Permutation (insert_sorted x l) (x :: l).
Proof.
  induction l as [|y l IH]; simpl; [reflexivity|].
  destruct (String.leb x y); [reflexivity|].
  rewrite IH. apply perm_swap.
Qed.

Lemma sorted_perm (l : list string) : Permutation (sorted l) l.
Proof.
  induction l as [|x l IH]; simpl; [reflexivity|].
  rewrite insert_sorted_perm, IH. reflexivity.
Qed.

Lemma insert_sorted_sorted (x : string) (l : list string) :
  StronglySorted (fun a b => String.leb a b = true) l ->
  StronglySorted (fun a b => String.leb a b = true) (insert_sorted x l).
Proof.
  induction 1 as [|y l Hl IH Hy]; simpl.
  - constructor; constructor.
  - destruct (String.leb x y) eqn:Hxy.
    + constructor; [constructor; assumption|]. constructor; [exact Hxy|].
      eapply Forall_impl; [exact Hy|]. intros z Hz. simpl in Hz.
      exact (leb_trans x y z Hxy Hz).
    + constructor; [exact IH|].
      rewrite insert_sorted_perm.
      constructor; [|exact Hy].
      destruct (String.leb_total x y) as [H|H]; [congruence | exact H].
Qed.

Lemma sorted_sorted (l : list string) :
  StronglySorted (fun a b => String.leb a b = true) (sorted l).
Proof.
  induction l as [|x l IH]; simpl; [constructor | apply insert_sorted_sorted, IH].
Qed.

(** Sorting a sorted list gives it back. *)
Lemma sorted_fixed (l : list string) :
  StronglySorted (fun a b => String.leb a b = true) l -> sorted l = l.
Proof.
  induction 1 as [|x l Hl IH Hx]; simpl; [reflexivity|].
  rewrite IH. destruct Hx as [|y l Hxy _]; simpl; [reflexivity|].
  rewrite Hxy. reflexivity.
Qed.

Lemma of_bucket_In (b : string) (cat : list Entry) (e : Entry) :
  In e (of_bucket b cat) <-> In e cat /\ bucket e = Str b.
Proof. unfold of_bucket. rewrite filter_In, bool_decide_eq_true. reflexivity. Qed.

Lemma filter_sublist {A : Type} (f : A -> bool) (l : list A) :
  sublist (List.filter f l) l.
Proof.
  induction l as [|x l IH]; simpl; [constructor|].
  destruct (f x); [apply sublist_skip | apply sublist_cons]; exact IH.
Qed.

(** In a de-duplicated catalogue the text names of one bucket differ. *)
Lemma text_names_distinct (b : string) (cat : list Entry) :
  NoDup (map key cat) ->
  (forall e, In e cat -> bucket e = Str b -> exists s, Medicamento (row e) = Str s) ->
  NoDup (map (fun e => str (Medicamento (row e))) (of_bucket b cat)).
Proof.
  intros Hnd Htext.
  assert (Hsub : NoDup (map key (of_bucket b cat))).
  { eapply sublist_NoDup; [exact Hnd|].
    change (sublist (key <$> of_bucket b cat) (key <$> cat)).
    apply fmap_sublist, filter_sublist. }
  assert (Hkey : map key (of_bucket b cat) =
                 map (fun s => (Str b, Str s))
                     (map (fun e => str (Medicamento (row e))) (of_bucket b cat))).
  { rewrite map_map. apply map_ext_in. intros e He. apply of_bucket_In in He.
    destruct He as [He Hb]. destruct (Htext e He Hb) as [s Hs].
    unfold key. rewrite Hb, Hs. reflexivity. }
  rewrite Hkey in Hsub.
  change (NoDup ((fun s => (Str b, Str s)) <$>
                 map (fun e => str (Medicamento (row e))) (of_bucket b cat))) in Hsub.
  exact (NoDup_fmap_1 _ _ Hsub).
Qed.

(** C7 (amended).  The choices of a bucket are the names, as texts, of
    the catalogue entries of that bucket, one per entry, in
    lexicographic order; they are pairwise distinct whenever the names of
    the bucket's entries are distinct as texts, as they are in a
    de-duplicated catalogue whose names in that bucket are text cells;
    sorting them again changes nothing; the four lists offered are those
    of Premedicación, Anticuerpos, Quimioterapia and Otros; and the names
    Ondansetron, Dexametasona of Premedicación come out as Dexametasona,
    Ondansetron. *)
Theorem C7_choices (cat : list Entry) (b : string) :
  Permutation (choices cat b)
              (map (fun e => str (Medicamento (row e))) (of_bucket b cat)) /\
  (forall e, In e (of_bucket b cat) <-> In e cat /\ bucket e = Str b) /\
  StronglySorted (fun x y => String.leb x y = true) (choices cat b) /\
  (NoDup (map (fun e => str (Medicamento (row e))) (of_bucket b cat)) ->
     NoDup (choices cat b)) /\
  (NoDup (map key cat) ->
     (forall e, In e cat -> bucket e = Str b -> exists s, Medicamento (row e) = Str s) ->
     NoDup (choices cat b)) /\
  sorted (choices cat b) = choices cat b /\
  human_bucket_choices cat =
    (choices cat "Premedicación", choices cat "Anticuerpos",
     choices cat "Quimioterapia", choices cat "Otros") /\
  choices [mkEntry (Str "Premedicación") (mkRow (Str "Ondansetron") NaN NaN NaN NaN NaN);
           mkEntry (Str "Premedicación") (mkRow (Str "Dexametasona") NaN NaN NaN NaN NaN)]
          "Premedicación" = ["Dexametasona"; "Ondansetron"].
Proof.
  assert (Hnd : NoDup (map (fun e => str (Medicamento (row e))) (of_bucket b cat)) ->
                NoDup (choices cat b)).
  { intros H. eapply NoDup_Permutation_proper; [|exact H]. apply sorted_perm. }
  split; [apply sorted_perm|].
  split; [intros e; apply of_bucket_In|].
  split; [apply sorted_sorted|].
  split; [exact Hnd|].
  split; [intros H1 H2; apply Hnd, text_names_distinct; assumption|].
  split; [apply sorted_fixed, sorted_sorted|].
  split; reflexivity.
Qed.

End Choices.

(* ================================================================== *)
(** ** The section table of the output sheet *)

Section Writer.











End Writer.

(* ================================================================== *)
(** ** The properties on the sample sheets *)

Section Samples.

(** The end-to-end example of the specification. *)
Example spec_sheet_catalogue :
  extract_catalog_from_excel spec_sheet =
    Ok [mkEntry (Str "Premedicación")
          (mkRow (Str "Dexametasona") (Str "8 mg") (Str "NaCl 0.9%") (Int 100)
                 (Str "15 min") (Str "IV"))].
Proof. vm_compute. reflexivity. Qed.

Example sample_sheet_catalogue :
  extract_catalog_from_excel sample_sheet = Ok sample_catalog.
Proof. vm_compute. reflexivity. Qed.

Example twice_sheet_catalogue :
  extract_catalog_from_excel twice_sheet = Ok twice_catalog.
Proof. vm_compute. reflexivity. Qed.

(** The two checks on the header cell are two different tests. *)
Example upper_case_header_passed_over :
  is_candidate [[Str " MEDICAMENTO "; Str "Dosis"]] 0 0 = true /\
  validated [[Str " MEDICAMENTO "; Str "Dosis"]] 0 0 = false /\
  extract_catalog_from_excel
    [[Str " MEDICAMENTO "; Str "Dosis"]; [Str "Paracetamol"; Str "1 g"]] = Ok [].
Proof. vm_compute. auto. Qed.

(** C1, as stated, fails on a sheet of two columns: the cell at (0, 0)
    is a validated anchor, the row below it is read, and no table is
    returned because the row has two cells for the six labels. *)
Lemma C1_counterexample :
  In (0, 0) (anchors narrow_sheet) /\
  ~ (exists body, extract_table narrow_sheet 0 0 = Ok body /\
                  table_body_of narrow_sheet 0 0 body) /\
  extract_catalog_from_excel narrow_sheet = Raise ValueError.
Proof.
  split; [vm_compute; auto|]. split; [|vm_compute; reflexivity].
  intros (body & H & _). vm_compute in H. discriminate H.
Qed.

Lemma C1_witness :
  exists body, extract_table spec_sheet 10 2 = Ok body /\
               table_body_of spec_sheet 10 2 body.
Proof.
  destruct (C1_table_body spec_sheet 10 2) as [Htotal Hbody].
  destruct (Htotal ltac:(vm_compute; lia)) as [body Hok].
  exists body. split; [exact Hok | exact (Hbody body Hok)].
Defined.

Lemma C2_witness : _infer_bucket spec_sheet 10 2 = "Premedicación".
Proof.
  destruct (C2_infer_bucket spec_sheet 10 2) as (_ & _ & _ & Hnear & _).
  apply (Hnear 4).
  - simpl. lia.
  - vm_compute. reflexivity.
  - intros up' Hup'.
    assert (E : up' = 5 \/ up' = 6 \/ up' = 7 \/ up' = 8 \/ up' = 9) by lia.
    destruct E as [->|[->|[->|[->| ->]]]]; vm_compute; reflexivity.
Defined.




(** C6, as stated, fails on a sheet whose anchor word is in the last
    column: the cell at (0, 1) lies in the first 200 rows and the first
    40 columns, and the scan does not look at it. *)
Lemma C6_counterexample :
  is_candidate last_column_sheet 0 1 = true /\
  ~ (In (0, 1) (visited last_column_sheet) <->
     0 < Nat.min 200 (shape0 last_column_sheet) /\
     1 < Nat.min 40 (shape1 last_column_sheet)) /\
  extract_catalog_from_excel last_column_sheet = Ok [].
Proof.
  split; [vm_compute; reflexivity|]. split; [|vm_compute; reflexivity].
  intros [_ H]. assert (Hin : In (0, 1) (visited last_column_sheet)).
  { apply H. vm_compute. lia. }
  vm_compute in Hin. destruct Hin as [Hin|[Hin|[]]]; discriminate Hin.
Qed.

Lemma C6_witness :
  In (1, 0) (visited sample_sheet) <-> 1 < shape0 sample_sheet /\ 0 + 1 < shape1 sample_sheet.
Proof.
  destruct (C6_scan_window sample_sheet 1 0) as (_ & _ & _ & Hsmall).
  apply Hsmall; vm_compute; lia.
Defined.

(** C7, as stated, fails on the catalogue of a sheet that lists the
    text 5 and the number 5: the catalogue is de-duplicated and the
    choices hold the name 5 twice. *)
Lemma C7_counterexample :
  extract_catalog_from_excel mixed_names_sheet = Ok mixed_names_catalog /\
  NoDup (map key mixed_names_catalog) /\
  choices mixed_names_catalog "Premedicación" = ["5"; "5"] /\
  ~ NoDup (choices mixed_names_catalog "Premedicación").
Proof.
  split; [vm_compute; reflexivity|].
  split; [apply (bool_decide_unpack _); vm_compute; exact I|].
  split; [vm_compute; reflexivity|].
  apply (bool_decide_unpack _). vm_compute. exact I.
Qed.

Lemma C7_witness : NoDup (choices sample_catalog "Premedicación").
Proof.
  destruct (C7_choices sample_catalog "Premedicación") as (_ & _ & _ & _ & Htext & _).
  apply Htext.
  - apply (bool_decide_unpack _). vm_compute. exact I.
  - intros e [<-|[<-|[]]] _; eexists; reflexivity.
Defined.


Lemma C9_witness :
  In (row_at sample_sheet 3 0)
     [mkRow (Str "Dexametasona") (Str "8 mg") (Str "NaCl 0.9%") (Int 100)
            (Str "15 min") (Str "IV");
      mkRow NaN (Str "4 mg") NaN NaN NaN NaN;
      mkRow (Str " - ") NaN NaN NaN NaN (Str "IV");
      mkRow (Str "Ondansetron") NaN NaN NaN NaN NaN] /\
  forall e, In e sample_catalog -> Medicamento (row e) <> NaN.
Proof.
  destruct (C9_missing_name_dropped sample_sheet 1 0 3) as (_ & Hbody & _ & _ & _ & Hcat).
  - vm_compute. reflexivity.
  - exists 1. split; [lia | vm_compute; discriminate].
  - split.
    + apply Hbody; [vm_compute; reflexivity | lia |].
      intros k Hk Hblank. assert (k = 2) as -> by lia.
      specialize (Hblank 0 ltac:(lia)). vm_compute in Hblank. discriminate Hblank.
    + intros e. apply Hcat. vm_compute. reflexivity.
Defined.

Lemma C10_witness :
  Forall (fun e => bucket e <> Str "Desconocido") sample_catalog.
Proof.
  destruct (C10_bucket_never_desconocido sample_sheet sample_catalog) as [Hb _].
  - vm_compute. reflexivity.
  - apply Forall_forall. intros e He. apply list_elem_of_In in He.
    exact (proj1 (Hb e He)).
Defined.

End Samples.

(* ================================================================== *)
(** ** When extraction raises *)

Section Errors.

Lemma labelled_raises (cells : list Cell) (e : PyError) :
  labelled cells = Raise e -> e = ValueError /\ length cells <> 6.
Proof.
  destruct cells as [|a [|b [|c [|d [|f [|g [|h cells]]]]]]]; simpl;
    intros [= <-]; split; (reflexivity || lia).
Qed.

Lemma labelled_short (cells : list Cell) :
  length cells <> 6 -> labelled cells = Raise ValueError.
Proof.
  destruct cells as [|a [|b [|c [|d [|f [|g [|h cells]]]]]]]; simpl; intros H;
    (reflexivity || lia).
Qed.

Lemma DataFrame_raises (rows : list (list Cell)) (e : PyError) :
  DataFrame rows = Raise e ->
  e = ValueError /\ exists cells, In cells rows /\ length cells <> 6.
Proof.
  induction rows as [|cells rows IH]; simpl; [discriminate|].
  destruct (labelled cells) as [x|e'] eqn:Hx; simpl.
  - destruct (DataFrame rows) as [df|e'] eqn:Hdf; simpl; [discriminate|].
    intros [= <-]. destruct (IH eq_refl) as (-> & cells' & Hin & Hlen).
    split; [reflexivity|]. exists cells'. auto.
  - intros [= <-]. destruct (labelled_raises cells e' Hx) as [-> Hlen].
    split; [reflexivity|]. exists cells. auto.
Qed.

Lemma DataFrame_short (rows : list (list Cell)) (cells : list Cell) :
  In cells rows -> length cells <> 6 -> DataFrame rows = Raise ValueError.
Proof.
  induction rows as [|cells' rows IH]; simpl; [tauto|].
  intros Hin Hlen. destruct (labelled cells') as [x|e] eqn:Hx; simpl.
  - destruct Hin as [->|Hin].
    + rewrite (labelled_short cells Hlen) in Hx. discriminate Hx.
    + rewrite (IH Hin Hlen). reflexivity.
  - destruct (labelled_raises cells' e Hx) as [-> _]. reflexivity.
Qed.

Lemma read_body_widths (raw : Grid) (c fuel rr : nat) (cells : list Cell) :
  In cells (read_body raw c fuel rr) ->
  length cells = Nat.min (c + 6) (shape1 raw) - c.
Proof.
  revert rr; induction fuel as [|fuel IH]; intros rr; simpl; [tauto|].
  destruct (rr <? shape0 raw)%nat; [|simpl; tauto].
  destruct (forallb isna (iloc raw rr c (c + 6))); simpl; [tauto|].
  intros [<-|H]; [apply iloc_length | exact (IH _ H)].
Qed.

Lemma read_body_first (raw : Grid) (c r : nat) :
  read_body raw c (shape0 raw - (r + 1)) (r + 1) <> [] <->
  r + 1 < shape0 raw /\ ~ blank_row raw (r + 1) c.
Proof.
  destruct (shape0 raw - (r + 1)) as [|fuel] eqn:E; simpl.
  - split; [congruence | intros [H _]; lia].
  - destruct (Nat.ltb_spec (r + 1) (shape0 raw)) as [Hr|Hr]; [|lia].
    destruct (forallb isna (iloc raw (r + 1) c (c + 6))) eqn:Hb.
    + split; [congruence|]. intros [_ H]. destruct H.
      exact (proj1 (blank_slice raw (r + 1) c) Hb).
    + split; [|discriminate]. intros _. split; [exact Hr|].
      intros H. apply blank_slice in H. congruence.
Qed.

(** The table below an anchor is refused exactly when fewer than six
    columns are left and the first row below is a data row. *)
Lemma extract_table_error (raw : Grid) (r c : nat) :
  (forall e, extract_table raw r c = Raise e -> e = ValueError) /\
  ((exists e, extract_table raw r c = Raise e) <->
   shape1 raw < c + 6 /\ r + 1 < shape0 raw /\ ~ blank_row raw (r + 1) c).
Proof.
  unfold extract_table. split.
  - intros e H. exact (proj1 (DataFrame_raises _ e H)).
  - split.
    + intros [e H]. apply DataFrame_raises in H.
      destruct H as (_ & cells & Hin & Hlen).
      rewrite (read_body_widths raw c _ _ cells Hin) in Hlen.
      split; [lia|]. apply read_body_first. intros E. rewrite E in Hin. destruct Hin.
    + intros (Hc & Hrest). apply read_body_first in Hrest.
      destruct (read_body raw c (shape0 raw - (r + 1)) (r + 1)) as [|cells rows] eqn:E;
        [congruence|].
      exists ValueError. apply (DataFrame_short _ cells); [left; reflexivity|].
      rewrite (read_body_widths raw c (shape0 raw - (r + 1)) (r + 1) cells)
        by (rewrite E; left; reflexivity).
      lia.
Qed.



(** X1.  Reading the table below a position raises nothing but
    ValueError, and it raises exactly when fewer than six columns are
    left from the position on and the row right below it is a row of the
    sheet that is not blank. *)
Theorem X1_extract_table_raises (raw : Grid) (r c : nat) :
  (forall e, extract_table raw r c = Raise e -> e = ValueError) /\
  ((exists e, extract_table raw r c = Raise e) <->
   shape1 raw < c + 6 /\ r + 1 < shape0 raw /\ ~ blank_row raw (r + 1) c).
Proof. exact (extract_table_error raw r c). Qed.


End Errors.

(* ================================================================== *)
(** ** Where the entries of the catalogue come from *)

Section Provenance.






End Provenance.

(* ================================================================== *)
(** ** Which header cells are accepted *)

Section Header.



Lemma str_app_assoc (s t u : string) : (s +:+ t) +:+ u = s +:+ (t +:+ u).
Proof. induction s as [|a s IH]; [reflexivity|]. rewrite !app_cons, IH. reflexivity. Qed.












End Header.

(* ================================================================== *)
(** ** What the bucket of an anchor depends on *)

Section BucketWindow.

Lemma infer_loop_ext (raw1 raw2 : Grid) (c : nat) (ups : list nat) :
  (forall up, In up ups -> row_text raw1 up c = row_text raw2 up c) ->
  infer_loop raw1 c ups = infer_loop raw2 c ups.
Proof.
  induction ups as [|up ups IH]; intros H; simpl; [reflexivity|].
  rewrite (H up) by (left; reflexivity).
  destruct (title_of (row_text raw2 up c)); [reflexivity|].
  apply IH. intros up' Hup'. apply H. right. exact Hup'.
Qed.

Lemma row_text_ext (raw1 raw2 : Grid) (up c : nat) :
  c < shape1 raw1 -> c < shape1 raw2 ->
  (forall j, c - 2 <= j <= c -> iat raw1 up j = iat raw2 up j) ->
  row_text raw1 up c = row_text raw2 up c.
Proof.
  intros H1 H2 H. unfold row_text, iloc. simpl Nat.max.
  replace (Nat.min (c + 1) (shape1 raw1)) with (c + 1) by lia.
  replace (Nat.min (c + 1) (shape1 raw2)) with (c + 1) by lia.
  f_equal. rewrite !map_map. apply map_ext_in. intros j Hj. apply in_seq in Hj.
  rewrite H by lia. reflexivity.
Qed.

(** X6.  The bucket of an anchor depends on nothing but the cells of the
    eight rows above it in its own column and the two columns to its
    left: two sheets that agree on these cells give the same bucket. *)
Theorem X6_bucket_depends_on_window (raw1 raw2 : Grid) (r c : nat) :
  c < shape1 raw1 -> c < shape1 raw2 ->
  (forall up j, r - 8 <= up < r -> c - 2 <= j <= c ->
     iat raw1 up j = iat raw2 up j) ->
  _infer_bucket raw1 r c = _infer_bucket raw2 r c.
Proof.
  intros H1 H2 H. unfold _infer_bucket. apply infer_loop_ext.
  intros up Hup. apply rows_above_In in Hup.
  apply row_text_ext; [exact H1 | exact H2|]. intros j Hj. apply H; assumption.
Qed.

Lemma lower_app (s t : string) : lower (s +:+ t) = lower s +:+ lower t.
Proof.
  induction s as [|a s IH]; [reflexivity|].
  rewrite app_cons. simpl. rewrite IH, app_cons. reflexivity.
Qed.

Lemma contains_lower (t s : string) :
  contains t s = true -> contains (lower t) (lower s) = true.
Proof.
  intros H. apply contains_spec in H. destruct H as (pre & post & ->).
  apply contains_spec. exists (lower pre), (lower post).
  rewrite !lower_app. reflexivity.
Qed.

Lemma contains_app_l (pat x y : string) :
  contains pat x = true -> contains pat (x +:+ y) = true.
Proof.
  intros H. apply contains_spec in H. destruct H as (pre & post & ->).
  apply contains_spec. exists pre, (post +:+ y).
  rewrite !str_app_assoc. reflexivity.
Qed.

Lemma contains_app_r (pat x y : string) :
  contains pat y = true -> contains pat (x +:+ y) = true.
Proof.
  intros H. apply contains_spec in H. destruct H as (pre & post & ->).
  apply contains_spec. exists (x +:+ pre), post.
  rewrite !str_app_assoc. reflexivity.
Qed.

(** What one of the joined texts holds, the joined text holds. *)
Lemma contains_join (pat sep x : string) (l : list string) :
  In x l -> contains pat x = true -> contains pat (join sep l) = true.
Proof.
  induction l as [|y l IH]; simpl; [tauto|].
  intros [->|Hin] Hx.
  - destruct l; [exact Hx | apply contains_app_l, Hx].
  - destruct l as [|z l]; [destruct Hin|].
    apply contains_app_r, contains_app_r, IH; assumption.
Qed.

Lemma rows_above_head (r : nat) :
  0 < r -> exists rest, rows_above r = (r - 1) :: rest.
Proof.
  intros Hr. rewrite (rows_above_split r (r - 1)) by lia.
  replace (r - (r - 1 + 1)) with 0 by lia. simpl. eexists; reflexivity.
Qed.

(** X7.  A cell of the row right above an anchor, in the anchor's column
    or one of the two columns to its left, whose text holds the word
    premedic in any mix of upper and lower case, makes the bucket
    Premedicación, whatever else the window holds. *)
Theorem X7_title_right_above (raw : Grid) (r c j : nat) (t : string) :
  0 < r -> c < shape1 raw -> c - 2 <= j <= c ->
  contains t (str (iat raw (r - 1) j)) = true -> lower t = "premedic" ->
  _infer_bucket raw r c = "Premedicación".
Proof.
  intros Hr Hc Hj Ht Hlow. unfold _infer_bucket.
  destruct (rows_above_head r Hr) as [rest ->]. simpl.
  assert (Hrow : contains "premedic" (row_text raw (r - 1) c) = true).
  { unfold row_text. apply (contains_join _ _ (lower (str (iat raw (r - 1) j)))).
    - apply in_map_iff. exists (iat raw (r - 1) j). split; [reflexivity|].
      apply iloc_In. exists j. simpl Nat.max. split; [lia | reflexivity].
    - rewrite <- Hlow. apply contains_lower, Ht. }
  unfold title_of. rewrite Hrow. reflexivity.
Qed.

End BucketWindow.

(* ================================================================== *)
(** ** De-duplication and sorting, once more *)

Section Stable.

Lemma drop_from_fixed (seen : list (Cell * Cell)) (cat : list Entry) :
  NoDup (map key cat) -> (forall e, In e cat -> key e ∉ seen) ->
  drop_from seen cat = cat.
Proof.
  revert seen; induction cat as [|d cat IH]; intros seen Hnd Hseen; simpl;
    [reflexivity|].
  simpl in Hnd. apply NoDup_cons in Hnd. destruct Hnd as [Hd Hnd].
  rewrite bool_decide_eq_false_2 by (apply Hseen; left; reflexivity).
  f_equal. apply IH; [exact Hnd|].
  intros e He Hin. apply elem_of_cons in Hin. destruct Hin as [Heq|Hin].
  - apply Hd. rewrite <- Heq. apply list_elem_of_In, in_map, He.
  - exact (Hseen e (or_intror He) Hin).
Qed.

(** X8.  De-duplication leaves a catalogue without repeated
    (bucket, name) pairs as it is; applying it twice is applying it once;
    a returned catalogue is left unchanged by it. *)
Theorem X8_drop_duplicates_stable (cat : list Entry) :
  (NoDup (map key cat) -> drop_duplicates cat = cat) /\
  drop_duplicates (drop_duplicates cat) = drop_duplicates cat /\
  (forall raw, extract_catalog_from_excel raw = Ok cat -> drop_duplicates cat = cat).
Proof.
  assert (Hfix : forall l, NoDup (map key l) -> drop_duplicates l = l).
  { intros l Hnd. apply drop_from_fixed; [exact Hnd|].
    intros e _. apply not_elem_of_nil. }
  split; [apply Hfix|]. split; [apply Hfix, drop_from_NoDup|].
  intros raw H. destruct (catalogue_of_frames raw cat H) as (frames & _ & _ & ->).
  apply Hfix, drop_from_NoDup.
Qed.

(** Two sorted lists with the same elements are the same list. *)
Lemma sorted_lists_equal (l1 l2 : list string) :
  StronglySorted (fun a b => String.leb a b = true) l1 ->
  StronglySorted (fun a b => String.leb a b = true) l2 ->
  Permutation l1 l2 -> l1 = l2.
Proof.
  intros H1; revert l2; induction H1 as [|x l1 Hs1 IH Hx]; intros l2 H2 Hp.
  - apply Permutation_nil in Hp. congruence.
  - destruct H2 as [|y l2 Hs2 Hy].
    + symmetry in Hp. apply Permutation_nil in Hp. discriminate Hp.
    + assert (Exy : x = y).
      { assert (Hxin : In x (y :: l2))
          by (apply (Permutation_in _ Hp); left; reflexivity).
        assert (Hyin : In y (x :: l1))
          by (apply (Permutation_in _ (Permutation_sym Hp)); left; reflexivity).
        destruct Hxin as [->|Hxin]; [reflexivity|].
        destruct Hyin as [->|Hyin]; [reflexivity|].
        rewrite Forall_forall in Hx, Hy.
        apply String.leb_antisym.
        - apply Hx, list_elem_of_In, Hyin.
        - apply Hy, list_elem_of_In, Hxin. }
      subst y. f_equal. apply IH; [exact Hs2|].
      exact (Permutation_cons_inv Hp).
Qed.

Lemma sorted_of_permutation (l1 l2 : list string) :
  Permutation l1 l2 -> sorted l1 = sorted l2.
Proof.
  intros Hp. apply sorted_lists_equal; [apply sorted_sorted..|].
  rewrite !sorted_perm. exact Hp.
Qed.

Lemma filter_permutation {A : Type} (f : A -> bool) (l1 l2 : list A) :
  Permutation l1 l2 -> Permutation (List.filter f l1) (List.filter f l2).
Proof.
  induction 1 as [|x l1 l2 _ IH|x y l|l1 l2 l3 _ IH1 _ IH2]; simpl.
  - reflexivity.
  - destruct (f x); [constructor|]; exact IH.
  - destruct (f x), (f y); try reflexivity. apply perm_swap.
  - etransitivity; eassumption.
Qed.

(** X9.  The choices of a bucket do not depend on the order of the rows
    of the catalogue, and they are the only sorted arrangement of the
    bucket's names. *)
Theorem X9_choices_order_free (cat cat' : list Entry) (b : string) :
  (Permutation cat cat' -> choices cat b = choices cat' b) /\
  (forall l, Permutation l (map (fun e => str (Medicamento (row e))) (of_bucket b cat)) ->
     StronglySorted (fun x y => String.leb x y = true) l -> l = choices cat b).
Proof.
  split.
  - intros Hp. unfold choices. apply sorted_of_permutation.
    apply Permutation_map, filter_permutation, Hp.
  - intros l Hp Hs. apply sorted_lists_equal; [exact Hs | apply sorted_sorted|].
    unfold choices. rewrite sorted_perm. exact Hp.
Qed.

End Stable.

(* ================================================================== *)
(** ** The layout of the output sheet *)

Section Layout.








End Layout.

(* ================================================================== *)
(** ** From the sheet to the choices and to the document *)

Section Document.

Lemma or_empty_default (x : option (list string)) : or_empty x = default [] x.
Proof. destruct x as [[|a l]|]; reflexivity. Qed.









(** X13.  The dict built by [on_generate] and the keys [write_table]
    looks up agree: each of the four section tables gets the list
    selected for its bucket, and the empty list when that selection is
    [None]. *)
Theorem X13_selection_keys_agree (prem acs qx otros : option (list string)) :
  meds_of (on_generate_selections prem acs qx otros) "Premedicación" = default [] prem /\
  meds_of (on_generate_selections prem acs qx otros) "Anticuerpos" = default [] acs /\
  meds_of (on_generate_selections prem acs qx otros) "Quimioterapia" = default [] qx /\
  meds_of (on_generate_selections prem acs qx otros) "Otros" = default [] otros.
Proof.
  rewrite <- !or_empty_default.
  unfold on_generate_selections, meds_of, get_list. simpl.
  repeat split;
    repeat (first [rewrite lookup_insert_eq; reflexivity
                  | rewrite lookup_insert_ne by discriminate]).
Qed.

End Document.

(* ================================================================== *)
(** ** The sheet [generate_indication_xlsx] writes *)

Section Sheet.




End Sheet.

(* ================================================================== *)
(** ** Which rows of the sheet reach the catalogue *)

Section Coverage.



End Coverage.

(* ================================================================== *)
(** ** The further properties on the sample sheets *)

Section MoreSamples.

Lemma X1_witness : exists e, extract_table narrow_sheet 0 0 = Raise e.
Proof.
  apply (proj2 (proj2 (X1_extract_table_raises narrow_sheet 0 0))).
  split; [vm_compute; lia|]. split; [vm_compute; lia|].
  intros H. specialize (H 0 ltac:(lia)). vm_compute in H. discriminate H.
Defined.





Lemma X6_witness :
  _infer_bucket sample_sheet 1 0 =
  _infer_bucket (sample_sheet ++ [[Str "Quimioterapia"; Str "Otros"]])%list 1 0.
Proof.
  apply X6_bucket_depends_on_window.
  - vm_compute. lia.
  - vm_compute. lia.
  - intros up j Hup Hj. assert (up = 0) as -> by lia. assert (j = 0) as -> by lia.
    reflexivity.
Defined.

Lemma X7_witness : _infer_bucket sample_sheet 1 0 = "Premedicación".
Proof.
  apply (X7_title_right_above sample_sheet 1 0 0 "PREMEDIC").
  - lia.
  - vm_compute. lia.
  - lia.
  - vm_compute. reflexivity.
  - reflexivity.
Defined.

Lemma X8_witness : drop_duplicates sample_catalog = sample_catalog.
Proof.
  apply (proj2 (proj2 (X8_drop_duplicates_stable sample_catalog)) sample_sheet).
  vm_compute. reflexivity.
Defined.

Lemma X9_witness :
  choices sample_catalog "Premedicación" = choices (rev sample_catalog) "Premedicación".
Proof.
  apply (proj1 (X9_choices_order_free sample_catalog (rev sample_catalog) "Premedicación")).
  apply Permutation_rev.
Defined.







End MoreSamples.
